(** * The orca playground program (playground/main.c)

    A shallow embedding of [main] from
    [release/build_20251116_231844/playground/main.c] and the properties
    its specification states about it.

    Modelling choices, all read off the C source:

    - [int] is a 32-bit two's complement integer, held in [Z]; the only
      arithmetic in the program is [i++], whose signed overflow is
      undefined behaviour and is modelled as such;
    - a [char *] argument is the [string] of the characters that precede
      its terminating NUL, each character an 8-bit [ascii];
    - [argv] is the [list] of those strings; [argv[i]] outside the list
      (the terminating null pointer, or beyond it) is undefined behaviour;
    - standard output is an append-only [string]; every [printf] appends
      to it.  The [int] that [printf] returns is discarded by each call in
      [main], so the model does not compute it;
    - the [for] loop is a [Fixpoint] on a fuel counter, one unit per
      evaluation of the loop condition, so that termination is a theorem
      and not a by-product of the definition. *)

From Stdlib Require Import ZArith List Lia Bool.
From Stdlib Require Import Strings.Ascii Strings.String.
From Stdlib Require Import Numbers.DecimalString Numbers.DecimalPos Numbers.DecimalZ.
Import ListNotations.

Local Open Scope string_scope.
Local Open Scope Z_scope.

(** ** Machine integers *)

Definition INT_MAX : Z := 2147483647.

(** ** Characters and text *)

(** The character written [\n] in a C literal. *)
Definition nl : string := String (ascii_of_nat 10) EmptyString.

(** What the conversion [%d] writes for an [int]: the decimal numeral, with
    a leading minus sign when negative and no padding. *)
Definition decimal (n : Z) : string := NilZero.string_of_int (Z.to_int n).

(** ** Outcomes and the output monad *)

(** A run of a piece of the program from a given content of standard
    output either completes with a value and the new content, or hits
    undefined behaviour, or is cut short by the fuel of the model. *)
Inductive outcome (A : Type) : Type :=
| Done (a : A) (out : string)
| Undefined
| OutOfFuel.

Arguments Done {A} a out.
Arguments Undefined {A}.
Arguments OutOfFuel {A}.

Definition M (A : Type) : Type := string -> outcome A.

Definition ret {A : Type} (a : A) : M A := fun out => Done a out.

Definition bind {A B : Type} (m : M A) (f : A -> M B) : M B :=
  fun out =>
    match m out with
    | Done a out' => f a out'
    | Undefined => Undefined
    | OutOfFuel => OutOfFuel
    end.

Definition undefined {A : Type} : M A := fun _ => Undefined.
Definition out_of_fuel {A : Type} : M A := fun _ => OutOfFuel.

(** Append text to standard output. *)
Definition write (text : string) : M unit := fun out => Done tt (out ++ text).

Notation "x <- m ;; k" := (bind m (fun x => k))
  (at level 61, m at next level, right associativity).
Notation "m ;;; k" := (bind m (fun _ => k))
  (at level 61, right associativity).

(** ** printf *)

(** The values passed after the format string. *)
Inductive printf_arg : Type :=
| ArgInt (n : Z)
| ArgStr (s : string).

(** Expansion of a format string against its arguments, for the
    conversions the program uses ([%d], [%s]) and [%%].  A conversion with
    no argument, or with one of the wrong type, is undefined behaviour
    ([None]), and so is here every conversion the program does not use;
    arguments left over are ignored, as in C. *)
Fixpoint format (fmt : string) (args : list printf_arg) : option string :=
  match fmt with
  | EmptyString => Some EmptyString
  | String "%" (String c rest) =>
      match c, args with
      | "d"%char, ArgInt n :: args' =>
          option_map (append (decimal n)) (format rest args')
      | "s"%char, ArgStr s :: args' =>
          option_map (append s) (format rest args')
      | "%"%char, _ =>
          option_map (String "%") (format rest args)
      | _, _ => None
      end
  | String "%" EmptyString => None
  | String c rest => option_map (String c) (format rest args)
  end.

Definition printf (fmt : string) (args : list printf_arg) : M unit :=
  match format fmt args with
  | Some text => write text
  | None => undefined
  end.

(** ** The program *)

(** [argv[i]]: the [i]-th entry of the argument vector. *)
Definition index (argv : list string) (i : Z) : M string :=
  if i <? 0 then undefined
  else match nth_error argv (Z.to_nat i) with
       | Some a => ret a
       | None => undefined
       end.

(** [i++] on an [int]. *)
Definition incr (i : Z) : M Z :=
  if i <? INT_MAX then ret (i + 1) else undefined.

(** [for (...; i < argc; i++) { printf("  [%d]: %s\n", i, argv[i]); }]
    from the current value of [i]. *)
Fixpoint for_loop (fuel : nat) (i argc : Z) (argv : list string) : M unit :=
  match fuel with
  | O => out_of_fuel
  | S fuel' =>
      if i <? argc then
        a <- index argv i ;;
        printf ("  [%d]: %s" ++ nl) [ArgInt i; ArgStr a] ;;;
        i' <- incr i ;;
        for_loop fuel' i' argc argv
      else ret tt
  end.

(** [int main(int argc, char *argv[])]; the value returned is the exit
    code of the process. *)
Definition main (fuel : nat) (argc : Z) (argv : list string) : M Z :=
  printf ("=== Playground Test Area for Orca ===" ++ nl) [] ;;;
  printf ("Hello from playground!" ++ nl) [] ;;;
  printf ("This is a test environment for orca integration." ++ nl ++ nl) [] ;;;
  (if 1 <? argc then
     printf ("Arguments received:" ++ nl) [] ;;;
     for_loop fuel 1 argc argv
   else
     printf ("No arguments provided." ++ nl) []) ;;;
  printf (nl ++ "Playground test completed successfully." ++ nl) [] ;;;
  ret 0.

(** The start-up contract of a hosted C environment: [argv] has exactly
    [argc] entries that are strings, and [argc] is a value of type [int]
    (it is non-negative because it is a length). *)
Definition hosted (argc : Z) (argv : list string) : Prop :=
  argc = Z.of_nat (List.length argv) /\ argc <= INT_MAX.

(** How many times a complete run evaluates the loop condition [i < argc]:
    not at all when the [else] branch is taken, and otherwise once for
    each [i] from [1] to [argc]. *)
Definition loop_tests (argc : Z) : nat :=
  if 1 <? argc then Z.to_nat argc else O.

(** ** The output the specification describes

    These definitions follow the wording of the specification, not the
    code; the theorems below compare the two. *)

(** Text made of the given lines, each closed by a newline. *)
Fixpoint unlines (ls : list string) : string :=
  match ls with
  | [] => EmptyString
  | l :: ls' => l ++ nl ++ unlines ls'
  end.

(** The lines of a text: the pieces between newlines, with a last
    unterminated piece (if not empty) counted as a line. *)
Fixpoint lines_of (text : string) : list string :=
  match text with
  | EmptyString => []
  | String c rest =>
      if Ascii.eqb c (ascii_of_nat 10) then EmptyString :: lines_of rest
      else match lines_of rest with
           | [] => [String c EmptyString]
           | l :: ls => String c l :: ls
           end
  end.

Definition spec_banner_lines : list string :=
  [ "=== Playground Test Area for Orca ===";
    "Hello from playground!";
    "This is a test environment for orca integration.";
    "" ].

Definition spec_banner : string := unlines spec_banner_lines.

(** The line [  [<index>]: <value>]. *)
Definition spec_argument_line (i : Z) (value : string) : string :=
  "  [" ++ decimal i ++ "]: " ++ value.

(** One line per argument, in order, numbered from [i]. *)
Fixpoint spec_argument_lines (i : Z) (args : list string) : list string :=
  match args with
  | [] => []
  | a :: args' => spec_argument_line i a :: spec_argument_lines (i + 1) args'
  end.

Definition spec_closing_lines : list string :=
  [ ""; "Playground test completed successfully." ].

Definition spec_closing : string := unlines spec_closing_lines.

(** The argument section: the heading and one line per argument, or the
    single line saying that there is none. *)
Definition spec_section (args : list string) : string :=
  match args with
  | [] => "No arguments provided." ++ nl
  | _ :: _ => unlines ("Arguments received:" :: spec_argument_lines 1 args)
  end.

(** Everything an invocation writes; [argv] is the whole argument vector,
    of which the first entry, the program's name, is not shown. *)
Definition spec_output (argv : list string) : string :=
  spec_banner ++ spec_section (tl argv) ++ spec_closing.

(** [l] has no newline in it, so that it is one line. *)
Fixpoint newline_free (l : string) : bool :=
  match l with
  | EmptyString => true
  | String c rest => negb (Ascii.eqb c (ascii_of_nat 10)) && newline_free rest
  end.

(** [text] ends with the line [l]: its last characters are [l] and the
    newline that closes it, [l] holds no newline itself, and it starts
    where a line starts, at the beginning of [text] or just behind a
    newline. *)
Definition ends_with_line (l text : string) : Prop :=
  newline_free l = true
  /\ exists before : string,
       text = before ++ l ++ nl
       /\ (before = EmptyString \/ exists b : string, before = b ++ nl).

(** [text] has [l] among its lines. *)
Definition contains_line (l text : string) : Prop := In l (lines_of text).

(** * Properties *)

(** ** Sample runs *)

Example run_without_arguments :
  main 0 1 ["playground"] ""
  = Done 0 "=== Playground Test Area for Orca ===
Hello from playground!
This is a test environment for orca integration.

No arguments provided.

Playground test completed successfully.
".
Proof. reflexivity. Qed.

Example run_foo_bar :
  main 3 3 ["playground"; "foo"; "bar"] ""
  = Done 0 "=== Playground Test Area for Orca ===
Hello from playground!
This is a test environment for orca integration.

Arguments received:
  [1]: foo
  [2]: bar

Playground test completed successfully.
".
Proof. reflexivity. Qed.

Example run_empty_string :
  main 2 2 ["playground"; ""] ""
  = Done 0 "=== Playground Test Area for Orca ===
Hello from playground!
This is a test environment for orca integration.

Arguments received:
  [1]: 

Playground test completed successfully.
".
Proof. reflexivity. Qed.

(** Twelve arguments: the index takes two digits from the tenth on. *)
Example run_tenth_argument :
  exists out : string,
    main 13 13 ("playground" :: repeat "x" 12) "" = Done 0 out
    /\ nth_error (lines_of out) 14 = Some "  [10]: x".
Proof. eexists. split; reflexivity. Qed.

(** Reading [argv[argc]] or beyond is undefined behaviour in the model. *)
Example run_with_short_vector :
  main 5 3 ["playground"; "foo"] "" = Undefined.
Proof. reflexivity. Qed.

Example run_short_of_fuel :
  main 2 3 ["playground"; "foo"; "bar"] "" = OutOfFuel.
Proof. reflexivity. Qed.

(** ** Text *)

Lemma append_assoc (a b c : string) : (a ++ b) ++ c = a ++ (b ++ c).
Proof.
  induction a as [|x a IH]; simpl; [reflexivity | now rewrite IH].
Qed.

Lemma append_empty_r (a : string) : a ++ "" = a.
Proof.
  induction a as [|x a IH]; simpl; [reflexivity | now rewrite IH].
Qed.

Lemma length_append (a b : string) :
  String.length (a ++ b) = (String.length a + String.length b)%nat.
Proof.
  induction a as [|x a IH]; simpl; [reflexivity | now rewrite IH].
Qed.

(** Dropping the first [n] characters. *)
Lemma substring_drops_prefix (a b : string) :
  substring (String.length a) (String.length b) (a ++ b) = b.
Proof.
  induction a as [|x a IH]; simpl.
  - induction b as [|y b IHb]; simpl; [reflexivity | now rewrite IHb].
  - exact IH.
Qed.

(** A text that has [suffix] as its last characters gives it back when
    cut at the matching place. *)
Lemma suffix_substring (suffix text : string) :
  (exists before : string, text = before ++ suffix) ->
  substring (String.length text - String.length suffix)
            (String.length suffix) text = suffix.
Proof.
  intros [before ->].
  rewrite length_append.
  replace (String.length before + String.length suffix
           - String.length suffix)%nat
    with (String.length before) by lia.
  apply substring_drops_prefix.
Qed.

(** Reading back the numeral written for an [int] gives that [int]. *)
Lemma decimal_reads_back (n : Z) :
  option_map Z.of_int (NilZero.int_of_string (decimal n)) = Some n.
Proof.
  unfold decimal.
  rewrite NilZero.isi.
  - simpl. now rewrite DecimalZ.of_to.
  - destruct n; simpl; try discriminate.
    intros [= E]. now apply DecimalPos.Unsigned.to_uint_nonnil in E.
  - destruct n; simpl; try discriminate.
    intros [= E]. now apply DecimalPos.Unsigned.to_uint_nonnil in E.
Qed.

(** Hence the numeral determines the [int]. *)
Lemma decimal_inj (n m : Z) : decimal n = decimal m -> n = m.
Proof.
  intros H.
  pose proof (decimal_reads_back n) as Hn.
  rewrite H, decimal_reads_back in Hn.
  now injection Hn.
Qed.

Lemma unlines_app (xs ys : list string) :
  unlines (xs ++ ys) = unlines xs ++ unlines ys.
Proof.
  induction xs as [|x xs IH]; simpl; [reflexivity|].
  now rewrite IH, !append_assoc.
Qed.

(** [lines_of] recovers the lines that [unlines] put together. *)
Lemma lines_of_line (l rest : string) :
  newline_free l = true ->
  lines_of (l ++ nl ++ rest) = l :: lines_of rest.
Proof.
  induction l as [|c l IH]; intros H; [reflexivity|].
  cbn [newline_free] in H. apply andb_prop in H as [Hc Hl].
  cbn [append lines_of].
  destruct (Ascii.eqb c (ascii_of_nat 10)); [discriminate|].
  now rewrite (IH Hl).
Qed.

Lemma lines_of_unlines (ls : list string) :
  forallb newline_free ls = true -> lines_of (unlines ls) = ls.
Proof.
  induction ls as [|l ls IH]; intros H; [reflexivity|].
  cbn [forallb] in H. apply andb_prop in H as [Hl Hls].
  cbn [unlines]. now rewrite lines_of_line, IH.
Qed.

Lemma newline_free_append (a b : string) :
  newline_free (a ++ b) = newline_free a && newline_free b.
Proof.
  induction a as [|c a IH]; [reflexivity|].
  cbn [append newline_free]. now rewrite IH, andb_assoc.
Qed.

Lemma decimal_newline_free (n : Z) : newline_free (decimal n) = true.
Proof.
  assert (U : forall d, newline_free (NilEmpty.string_of_uint d) = true)
    by (induction d; simpl; auto).
  unfold decimal.
  destruct (Z.to_int n) as [d|d]; destruct d; simpl; auto; apply U.
Qed.

(** ** The specification's argument lines *)

Lemma spec_argument_lines_length (i : Z) (args : list string) :
  List.length (spec_argument_lines i args) = List.length args.
Proof.
  revert i. induction args as [|a args IH]; intros i; simpl;
    [reflexivity | now rewrite IH].
Qed.

Lemma spec_argument_lines_nth (args : list string) :
  forall (i : Z) (k : nat) (a : string),
    nth_error args k = Some a ->
    nth_error (spec_argument_lines i args) k
    = Some (spec_argument_line (i + Z.of_nat k) a).
Proof.
  induction args as [|x args IH]; intros i k a H.
  - destruct k; discriminate.
  - destruct k as [|k]; simpl in *.
    + injection H as ->. now rewrite Z.add_0_r.
    + rewrite (IH (i + 1) k a H). do 2 f_equal. lia.
Qed.

Lemma spec_argument_lines_newline_free (args : list string) :
  forall i : Z,
    forallb newline_free args = true ->
    forallb newline_free (spec_argument_lines i args) = true.
Proof.
  induction args as [|a args IH]; intros i H; [reflexivity|].
  cbn [forallb] in H. apply andb_prop in H as [Ha Hargs].
  cbn [spec_argument_lines forallb]. rewrite (IH _ Hargs), andb_true_r.
  unfold spec_argument_line.
  now rewrite !newline_free_append, decimal_newline_free, Ha.
Qed.

(** ** printf *)

Lemma printf_argument_line (i : Z) (a out : string) :
  printf ("  [%d]: %s" ++ nl) [ArgInt i; ArgStr a] out
  = Done tt (out ++ spec_argument_line i a ++ nl).
Proof.
  unfold spec_argument_line.
  change (printf ("  [%d]: %s" ++ nl) [ArgInt i; ArgStr a] out)
    with (Done tt (out ++ "  [" ++ decimal i ++ "]: " ++ a ++ nl)).
  do 2 f_equal. simpl. now rewrite !append_assoc.
Qed.

Lemma printf_literal (text out : string) :
  format text [] = Some text -> printf text [] out = Done tt (out ++ text).
Proof. unfold printf. now intros ->. Qed.

(** ** The loop *)

Lemma index_in_range (pre args : list string) (a : string) :
  index (pre ++ a :: args) (Z.of_nat (List.length pre)) = ret a.
Proof.
  unfold index.
  destruct (Z.ltb_spec (Z.of_nat (List.length pre)) 0) as [H|_]; [lia|].
  rewrite Nat2Z.id, nth_error_app2, Nat.sub_diag by lia.
  reflexivity.
Qed.

Lemma incr_below (i bound : Z) :
  i < bound -> bound <= INT_MAX -> incr i = ret (i + 1).
Proof.
  intros Hi Hb. unfold incr.
  destruct (Z.ltb_spec i INT_MAX) as [_|H]; [reflexivity | lia].
Qed.

(** The loop, entered with [i] pointing at the first of the remaining
    arguments [args], writes one line for each of them and completes, if
    it has one unit of fuel for each of them and one for the final test;
    with less it runs out of fuel.  It never hits undefined behaviour. *)
Lemma for_loop_exact (args : list string) :
  forall (pre : list string) (fuel : nat) (out : string),
    Z.of_nat (List.length (pre ++ args)) <= INT_MAX ->
    for_loop fuel (Z.of_nat (List.length pre))
             (Z.of_nat (List.length (pre ++ args))) (pre ++ args) out
    = if (List.length args <? fuel)%nat
      then Done tt (out ++ unlines (spec_argument_lines
                                      (Z.of_nat (List.length pre)) args))
      else OutOfFuel.
Proof.
  induction args as [|a args IH]; intros pre fuel out Hmax.
  - destruct fuel as [|fuel]; [reflexivity|].
    cbn [for_loop]. rewrite app_nil_r, Z.ltb_irrefl.
    cbn. now rewrite append_empty_r.
  - destruct fuel as [|fuel]; [reflexivity|].
    cbn [for_loop].
    assert (Hlt : Z.of_nat (List.length pre)
                  < Z.of_nat (List.length (pre ++ a :: args))).
    { rewrite length_app. cbn [List.length]. lia. }
    destruct (Z.ltb_spec (Z.of_nat (List.length pre))
                (Z.of_nat (List.length (pre ++ a :: args)))) as [_|H];
      [|lia].
    unfold bind at 1. rewrite index_in_range. unfold ret at 1.
    unfold bind at 1. rewrite printf_argument_line.
    unfold bind at 1. rewrite (incr_below _ _ Hlt Hmax). unfold ret at 1.
    replace (pre ++ a :: args)%list with ((pre ++ [a]) ++ args)%list
      by now rewrite <- app_assoc.
    replace (Z.of_nat (List.length pre) + 1)
      with (Z.of_nat (List.length (pre ++ [a])%list))
      by (rewrite length_app; cbn [List.length]; lia).
    rewrite IH by (now rewrite <- app_assoc).
    cbn [List.length spec_argument_lines unlines].
    change (S (List.length args) <? S fuel)%nat
      with (List.length args <? fuel)%nat.
    destruct (List.length args <? fuel)%nat; [|reflexivity].
    f_equal.
    replace (Z.of_nat (List.length (pre ++ [a])%list))
      with (Z.of_nat (List.length pre) + 1)
      by (rewrite length_app; cbn [List.length]; lia).
    now rewrite !append_assoc.
Qed.

(** ** The whole program *)

(** What [main] does around the loop. *)
Lemma main_unfold (fuel : nat) (argc : Z) (argv : list string) (out : string) :
  main fuel argc argv out
  = if 1 <? argc then
      match for_loop fuel 1 argc argv
              (out ++ spec_banner ++ "Arguments received:" ++ nl) with
      | Done _ out' => Done 0 (out' ++ spec_closing)
      | Undefined => Undefined
      | OutOfFuel => OutOfFuel
      end
    else
      Done 0 (out ++ spec_banner ++ "No arguments provided." ++ nl
                  ++ spec_closing).
Proof.
  unfold main, bind.
  rewrite !printf_literal by reflexivity.
  destruct (1 <? argc).
  - rewrite !printf_literal by reflexivity.
    rewrite !append_assoc.
    now destruct (for_loop fuel 1 argc argv _) as [[] out'| |].
  - rewrite !printf_literal by reflexivity.
    rewrite !append_assoc. reflexivity.
Qed.

(** A run started the way a hosted environment starts it completes with
    exit code 0 and the specified output exactly when the fuel covers the
    evaluations of the loop condition, and runs out of fuel otherwise. *)
Lemma main_hosted (fuel : nat) (argc : Z) (argv : list string) (out : string) :
  hosted argc argv ->
  main fuel argc argv out
  = if (loop_tests argc <=? fuel)%nat
    then Done 0 (out ++ spec_output argv)
    else OutOfFuel.
Proof.
  intros [-> Hmax]. rewrite main_unfold. unfold loop_tests, spec_output.
  destruct argv as [|prog [|a args]].
  - reflexivity.
  - reflexivity.
  - destruct (Z.ltb_spec 1 (Z.of_nat (List.length (prog :: a :: args))))
      as [_|H]; [|cbn [List.length] in H; lia].
    rewrite Nat2Z.id.
    change (prog :: a :: args) with ([prog] ++ a :: args)%list at 1 2.
    change 1 with (Z.of_nat (List.length [prog])) at 1.
    rewrite for_loop_exact by exact Hmax.
    destruct (Nat.leb_spec (List.length (prog :: a :: args)) fuel);
      destruct (Nat.ltb_spec (List.length (a :: args)) fuel);
      cbn [List.length] in *; try lia; [|reflexivity].
    f_equal. cbn [tl spec_section unlines List.length Z.of_nat].
    change (Z.of_nat 1) with 1.
    now rewrite !append_assoc.
Qed.

Lemma loop_tests_le (argc : Z) : (loop_tests argc <= Z.to_nat argc)%nat.
Proof. unfold loop_tests. destruct (1 <? argc); lia. Qed.

Lemma main_completes (fuel : nat) (argc : Z) (argv : list string) (out : string) :
  hosted argc argv -> (loop_tests argc <= fuel)%nat ->
  main fuel argc argv out = Done 0 (out ++ spec_output argv).
Proof.
  intros Hh Hf. rewrite main_hosted by exact Hh.
  now apply Nat.leb_le in Hf as ->.
Qed.

(** The first entry of [argv] is never read by the loop. *)
Lemma index_tail (p1 p2 : string) (args : list string) (i : Z) :
  1 <= i -> index (p1 :: args) i = index (p2 :: args) i.
Proof.
  intros Hi. unfold index.
  destruct (i <? 0); [reflexivity|].
  destruct (Z.to_nat i) eqn:E; [lia | reflexivity].
Qed.

Lemma for_loop_tail (fuel : nat) :
  forall (i argc : Z) (p1 p2 : string) (args : list string) (out : string),
    1 <= i ->
    for_loop fuel i argc (p1 :: args) out
    = for_loop fuel i argc (p2 :: args) out.
Proof.
  induction fuel as [|fuel IH]; intros i argc p1 p2 args out Hi;
    [reflexivity|].
  cbn [for_loop]. destruct (i <? argc); [|reflexivity].
  unfold bind. rewrite (index_tail p1 p2) by exact Hi.
  destruct (index (p2 :: args) i out) as [a out1| |]; try reflexivity.
  destruct (printf _ _ out1) as [[] out2| |]; try reflexivity.
  unfold incr. destruct (i <? INT_MAX); [|reflexivity].
  unfold ret. apply IH. lia.
Qed.

(** ** The claims of the specification *)

(** The bytes written with N >= 1 arguments, whatever they hold: the
    banner, [Arguments received:], then for each argument in turn its
    index in brackets, the argument unchanged and a newline, then the
    closing lines. *)
Lemma arguments_echoed
    (prog : string) (args : list string) (argc : Z) (fuel : nat)
    (out : string) :
  hosted argc (prog :: args) ->
  args <> [] ->
  (Z.to_nat argc <= fuel)%nat ->
  main fuel argc (prog :: args) out
  = Done 0 (out ++ spec_banner
                ++ unlines ("Arguments received:"
                              :: spec_argument_lines 1 args)
                ++ spec_closing)
  /\ List.length (spec_argument_lines 1 args) = List.length args
  /\ forall (k : nat) (a : string),
       nth_error args k = Some a ->
       nth_error (spec_argument_lines 1 args) k
       = Some ("  [" ++ decimal (Z.of_nat k + 1) ++ "]: " ++ a).
Proof.
  intros Hh Hne Hf. repeat split.
  - rewrite main_completes; trivial.
    + unfold spec_output. cbn [tl]. now destruct args.
    + pose proof (loop_tests_le argc). lia.
  - apply spec_argument_lines_length.
  - intros k a Hk.
    rewrite (spec_argument_lines_nth args 1 k a Hk).
    unfold spec_argument_line. now rewrite Z.add_comm.
Qed.

(** When no argument has a newline in it, the lines of the output are the
    banner's, the heading, one line for each argument and the closing
    two. *)
Lemma argument_run_lines
    (prog : string) (args : list string) (argc : Z) (fuel : nat) :
  hosted argc (prog :: args) ->
  args <> [] ->
  (Z.to_nat argc <= fuel)%nat ->
  forallb newline_free args = true ->
  exists written : string,
    main fuel argc (prog :: args) "" = Done 0 written
    /\ lines_of written
       = (spec_banner_lines
            ++ "Arguments received:" :: spec_argument_lines 1 args
            ++ spec_closing_lines)%list.
Proof.
  intros Hh Hne Hf Hnl. exists (spec_output (prog :: args)). split.
  - apply (main_completes fuel argc (prog :: args) "" Hh).
    pose proof (loop_tests_le argc). lia.
  - unfold spec_output, spec_banner, spec_closing. cbn [tl append].
    destruct args as [|a args]; [contradiction|]. unfold spec_section.
    rewrite <- !unlines_app. apply lines_of_unlines.
    rewrite forallb_app. cbn [forallb]. rewrite forallb_app.
    now rewrite spec_argument_lines_newline_free.
Qed.

(** C1, as the specification words it, fails when an argument holds a
    newline.  The one argument [foo], newline, [  [2]: bar] comes out on
    two lines: none of the lines written is [  [1]: ] followed by that
    argument, and two lines have the shape of an argument line, not
    one. *)
Lemma C1_newline_argument_is_not_one_line :
  hosted 2 ["playground"; "foo" ++ nl ++ "  [2]: bar"]
  /\ exists written : string,
       main 2 2 ["playground"; "foo" ++ nl ++ "  [2]: bar"] ""
       = Done 0 written
       /\ lines_of written
          = [ "=== Playground Test Area for Orca ===";
              "Hello from playground!";
              "This is a test environment for orca integration.";
              "";
              "Arguments received:";
              "  [1]: foo";
              "  [2]: bar";
              "";
              "Playground test completed successfully." ]
       /\ ~ (exists before entries after : list string,
               lines_of written
               = (before ++ "Arguments received:" :: entries ++ after)%list
               /\ List.length entries = 1%nat
               /\ nth_error entries 0
                  = Some ("  [" ++ decimal 1 ++ "]: "
                               ++ ("foo" ++ nl ++ "  [2]: bar"))).
Proof.
  split; [split; [reflexivity | unfold INT_MAX; lia]|].
  eexists. split; [vm_compute; reflexivity|]. split; [reflexivity|].
  intros [before [entries [after [HL [_ Hnth]]]]].
  apply nth_error_In in Hnth.
  assert (Hin : In ("  [" ++ decimal 1 ++ "]: "
                         ++ ("foo" ++ nl ++ "  [2]: bar"))
                   (before ++ "Arguments received:" :: entries ++ after)).
  { apply in_or_app. right. right. apply in_or_app. now left. }
  rewrite <- HL in Hin. vm_compute in Hin. intuition discriminate.
Qed.

(** C1, amended.  With N >= 1 arguments the program completes having
    written the banner, [Arguments received:] and its newline, then for
    each argument in turn [  [k]: ] (k counting from 1), the argument
    byte for byte and a newline, then the closing lines.  When no
    argument holds a newline, the lines of what is written are the
    banner's, the line [Arguments received:], exactly N lines of which
    the k-th is [  [k]: ] followed by the k-th argument, and the two
    closing lines. *)
Theorem C1_argument_lines
    (prog : string) (args : list string) (argc : Z) (fuel : nat)
    (out : string) :
  hosted argc (prog :: args) ->
  args <> [] ->
  (Z.to_nat argc <= fuel)%nat ->
  exists written : string,
    main fuel argc (prog :: args) out = Done 0 (out ++ written)
    /\ written
       = spec_banner
           ++ unlines ("Arguments received:" :: spec_argument_lines 1 args)
           ++ spec_closing
    /\ List.length (spec_argument_lines 1 args) = List.length args
    /\ (forall (k : nat) (a : string),
          nth_error args k = Some a ->
          nth_error (spec_argument_lines 1 args) k
          = Some ("  [" ++ decimal (Z.of_nat k + 1) ++ "]: " ++ a))
    /\ (forallb newline_free args = true ->
        exists entries : list string,
          lines_of written
          = (spec_banner_lines
               ++ "Arguments received:" :: entries
               ++ spec_closing_lines)%list
          /\ List.length entries = List.length args
          /\ forall (k : nat) (a : string),
               nth_error args k = Some a ->
               nth_error entries k
               = Some ("  [" ++ decimal (Z.of_nat k + 1) ++ "]: " ++ a)).
Proof.
  intros Hh Hne Hf.
  destruct (arguments_echoed prog args argc fuel out Hh Hne Hf)
    as [Hrun [Hlen Hnth]].
  eexists. split; [exact Hrun|]. split; [reflexivity|].
  split; [exact Hlen|]. split; [exact Hnth|].
  intros Hnl. exists (spec_argument_lines 1 args).
  split; [|split; assumption].
  destruct (argument_run_lines prog args argc fuel Hh Hne Hf Hnl)
    as [w [R L]].
  destruct (arguments_echoed prog args argc fuel "" Hh Hne Hf) as [R' _].
  rewrite R in R'. injection R' as ->. exact L.
Qed.

Lemma C1_argument_lines_witness :
  hosted 3 ["playground"; "foo"; ""]
  /\ ["foo"; ""] <> []
  /\ (Z.to_nat 3 <= 3)%nat
  /\ forallb newline_free ["foo"; ""] = true
  /\ exists (written : string) (entries : list string),
       main 3 3 ["playground"; "foo"; ""] "" = Done 0 ("" ++ written)
       /\ lines_of written
          = (spec_banner_lines
               ++ "Arguments received:" :: entries
               ++ spec_closing_lines)%list
       /\ List.length entries = List.length ["foo"; ""]
       /\ forall (k : nat) (a : string),
            nth_error ["foo"; ""] k = Some a ->
            nth_error entries k
            = Some ("  [" ++ decimal (Z.of_nat k + 1) ++ "]: " ++ a).
Proof.
  assert (H : hosted 3 ["playground"; "foo"; ""])
    by (split; [reflexivity | unfold INT_MAX; lia]).
  assert (Hne : ["foo"; ""] <> []) by discriminate.
  assert (Hf : (Z.to_nat 3 <= 3)%nat) by (vm_compute; lia).
  assert (Hnl : forallb newline_free ["foo"; ""] = true) by reflexivity.
  split; [exact H|]. split; [exact Hne|]. split; [exact Hf|].
  split; [exact Hnl|].
  destruct (C1_argument_lines "playground" ["foo"; ""] 3 3 "" H Hne Hf)
    as [written [Hrun [_ [_ [_ Hlines]]]]].
  destruct (Hlines Hnl) as [entries Hentries].
  exists written, entries. split; [exact Hrun | exact Hentries].
Defined.

(** C2. Every invocation writes the banner first: its three lines and a
    blank line, ahead of everything else it writes. *)
Theorem C2_banner_first
    (argc : Z) (argv : list string) (fuel : nat) (out : string) :
  hosted argc argv ->
  (Z.to_nat argc <= fuel)%nat ->
  exists rest : string,
    main fuel argc argv out
    = Done 0 (out ++ unlines [ "=== Playground Test Area for Orca ===";
                               "Hello from playground!";
                               "This is a test environment for orca integration.";
                               "" ]
                  ++ rest).
Proof.
  intros Hh Hf. exists (spec_section (tl argv) ++ spec_closing).
  rewrite main_completes; trivial.
  pose proof (loop_tests_le argc). lia.
Qed.

Lemma C2_banner_first_witness :
  hosted 2 ["playground"; "foo"]
  /\ exists rest : string,
       main 2 2 ["playground"; "foo"] ""
       = Done 0 ("" ++ unlines [ "=== Playground Test Area for Orca ===";
                                 "Hello from playground!";
                                 "This is a test environment for orca integration.";
                                 "" ]
                    ++ rest).
Proof.
  assert (H : hosted 2 ["playground"; "foo"])
    by (split; [reflexivity | unfold INT_MAX; lia]).
  split; [exact H|].
  apply (C2_banner_first 2 ["playground"; "foo"] 2 "" H). vm_compute; lia.
Defined.

(** C3, as the specification words it, fails: with no argument what is
    written ends with the completion line.  [No arguments provided.] and
    its newline are not even the last characters written, let alone the
    last line. *)
Lemma C3_ends_with_no_arguments_line_fails :
  exists written : string,
    main 0 1 ["playground"] "" = Done 0 written
    /\ ends_with_line "Playground test completed successfully." written
    /\ ~ (exists before : string,
            written = before ++ "No arguments provided." ++ nl)
    /\ ~ ends_with_line "No arguments provided." written.
Proof.
  eexists. split; [vm_compute; reflexivity|].
  assert (Hsuffix : ~ (exists before : string,
                         spec_output ["playground"]
                         = before ++ "No arguments provided." ++ nl)).
  { intros H. apply suffix_substring in H.
    vm_compute in H. discriminate H. }
  split; [|split].
  - split; [reflexivity|].
    exists (spec_banner ++ "No arguments provided." ++ nl ++ nl).
    split; [reflexivity|]. right.
    exists (spec_banner ++ "No arguments provided." ++ nl). reflexivity.
  - exact Hsuffix.
  - intros [_ [before [H _]]]. apply Hsuffix. now exists before.
Qed.

(** C3, amended.  With no argument ([argc] is 0 or 1; the argument vector
    is not read) the program completes having written the banner, then
    the line [No arguments provided.], then the closing blank line and
    completion line: [No arguments provided.] is a whole line, the last
    one ahead of the two closing lines, and the line
    [Arguments received:] is nowhere in what has been written. *)
Theorem C3_no_arguments
    (argc : Z) (argv : list string) (fuel : nat) (out : string) :
  argc <= 1 ->
  exists body : string,
    main fuel argc argv out = Done 0 (out ++ body ++ spec_closing)
    /\ body = spec_banner ++ "No arguments provided." ++ nl
    /\ ends_with_line "No arguments provided." body
    /\ lines_of (body ++ spec_closing)
       = [ "=== Playground Test Area for Orca ===";
           "Hello from playground!";
           "This is a test environment for orca integration.";
           "";
           "No arguments provided.";
           "";
           "Playground test completed successfully." ]
    /\ ~ contains_line "Arguments received:" (body ++ spec_closing).
Proof.
  intros Hargc. exists (spec_banner ++ "No arguments provided." ++ nl).
  split; [|split; [|split; [|split]]].
  - rewrite main_unfold.
    destruct (Z.ltb_spec 1 argc) as [H|_]; [lia|].
    now rewrite !append_assoc.
  - reflexivity.
  - split; [reflexivity|]. exists spec_banner. split; [reflexivity|].
    right. exists (unlines [ "=== Playground Test Area for Orca ===";
                             "Hello from playground!";
                             "This is a test environment for orca integration." ]).
    reflexivity.
  - reflexivity.
  - unfold contains_line. vm_compute. intuition discriminate.
Qed.

Lemma C3_no_arguments_witness :
  1 <= 1
  /\ exists body : string,
       main 0 1 ["playground"] "" = Done 0 ("" ++ body ++ spec_closing)
       /\ body = spec_banner ++ "No arguments provided." ++ nl
       /\ ends_with_line "No arguments provided." body
       /\ lines_of (body ++ spec_closing)
          = [ "=== Playground Test Area for Orca ===";
              "Hello from playground!";
              "This is a test environment for orca integration.";
              "";
              "No arguments provided.";
              "";
              "Playground test completed successfully." ]
       /\ ~ contains_line "Arguments received:" (body ++ spec_closing).
Proof.
  split; [lia|].
  apply (C3_no_arguments 1 ["playground"] 0 ""). lia.
Defined.

Lemma unlines_ends_with_newline (l : string) (ls : list string) :
  exists before : string, unlines (l :: ls) = before ++ nl.
Proof.
  destruct (exists_last (l := l :: ls)) as [front [final E]];
    [discriminate|].
  rewrite E, unlines_app. cbn [unlines]. rewrite append_empty_r.
  exists (unlines front ++ final). now rewrite append_assoc.
Qed.

Lemma spec_section_ends_with_newline (args : list string) :
  exists before : string, spec_section args = before ++ nl.
Proof.
  destruct args as [|a args].
  - now exists "No arguments provided.".
  - apply unlines_ends_with_newline.
Qed.

(** C4. Every invocation ends what it writes, after the argument section
    (whose last line is closed by a newline), with a blank line and the
    line [Playground test completed successfully.]. *)
Theorem C4_closing_last
    (argc : Z) (argv : list string) (fuel : nat) (out : string) :
  hosted argc argv ->
  (Z.to_nat argc <= fuel)%nat ->
  exists before : string,
    spec_banner ++ spec_section (tl argv) = before ++ nl
    /\ main fuel argc argv out
       = Done 0 (out ++ (before ++ nl)
                     ++ unlines [ "";
                                  "Playground test completed successfully." ]).
Proof.
  intros Hh Hf.
  destruct (spec_section_ends_with_newline (tl argv)) as [b Hb].
  exists (spec_banner ++ b). split.
  - now rewrite Hb, append_assoc.
  - rewrite main_completes; trivial.
    + unfold spec_output. now rewrite Hb, !append_assoc.
    + pose proof (loop_tests_le argc). lia.
Qed.

Lemma C4_closing_last_witness :
  hosted 2 ["playground"; "foo bar"]
  /\ exists before : string,
       spec_banner ++ spec_section (tl ["playground"; "foo bar"])
       = before ++ nl
       /\ main 2 2 ["playground"; "foo bar"] ""
          = Done 0 ("" ++ (before ++ nl)
                       ++ unlines [ "";
                                    "Playground test completed successfully." ]).
Proof.
  assert (H : hosted 2 ["playground"; "foo bar"])
    by (split; [reflexivity | unfold INT_MAX; lia]).
  split; [exact H|].
  apply (C4_closing_last 2 ["playground"; "foo bar"] 2 "" H).
  vm_compute; lia.
Defined.

(** C5. Every invocation, whatever the arguments are, completes with exit
    code 0. *)
Theorem C5_exit_code_zero
    (argc : Z) (argv : list string) (fuel : nat) (out : string) :
  hosted argc argv ->
  (Z.to_nat argc <= fuel)%nat ->
  exists out' : string, main fuel argc argv out = Done 0 out'.
Proof.
  intros Hh Hf. eexists. apply main_completes; trivial.
  pose proof (loop_tests_le argc). lia.
Qed.

Lemma C5_exit_code_zero_witness :
  hosted 3 ["playground"; ""; " a b" ++ nl ++ "%s%d\"]
  /\ exists out' : string,
       main 3 3 ["playground"; ""; " a b" ++ nl ++ "%s%d\"] "" = Done 0 out'.
Proof.
  assert (H : hosted 3 ["playground"; ""; " a b" ++ nl ++ "%s%d\"])
    by (split; [reflexivity | unfold INT_MAX; lia]).
  split; [exact H|].
  apply (C5_exit_code_zero 3 _ 3 "" H). vm_compute; lia.
Defined.

(** C6. No run takes an error branch: started by a hosted environment,
    the program never reaches undefined behaviour, however far it is run
    and whatever the arguments contain, and run to the end it has
    completed normally. *)
Theorem C6_no_failure
    (argc : Z) (argv : list string) (fuel : nat) (out : string) :
  hosted argc argv ->
  (Z.to_nat argc <= fuel)%nat ->
  (forall fuel' : nat, main fuel' argc argv out <> Undefined)
  /\ exists out' : string, main fuel argc argv out = Done 0 out'.
Proof.
  intros Hh Hf. split.
  - intros fuel'. rewrite main_hosted by exact Hh.
    now destruct (loop_tests argc <=? fuel')%nat.
  - eexists. apply main_completes; trivial.
    pose proof (loop_tests_le argc). lia.
Qed.

Lemma C6_no_failure_witness :
  hosted 3 ["playground"; "--help"; "-1"]
  /\ (forall fuel' : nat,
        main fuel' 3 ["playground"; "--help"; "-1"] "" <> Undefined)
  /\ exists out' : string,
       main 3 3 ["playground"; "--help"; "-1"] "" = Done 0 out'.
Proof.
  assert (H : hosted 3 ["playground"; "--help"; "-1"])
    by (split; [reflexivity | unfold INT_MAX; lia]).
  split; [exact H|].
  apply (C6_no_failure 3 ["playground"; "--help"; "-1"] 3 "" H).
  vm_compute; lia.
Defined.

(** C7. Two invocations with the same arguments write the same bytes and
    exit with the same code, whatever standard output held before each
    of them and however much fuel each is given beyond what it needs. *)
Theorem C7_deterministic
    (argc : Z) (argv : list string) (fuel1 fuel2 : nat)
    (out1 out2 : string) :
  hosted argc argv ->
  (Z.to_nat argc <= fuel1)%nat ->
  (Z.to_nat argc <= fuel2)%nat ->
  exists (code : Z) (written : string),
    main fuel1 argc argv out1 = Done code (out1 ++ written)
    /\ main fuel2 argc argv out2 = Done code (out2 ++ written).
Proof.
  intros Hh Hf1 Hf2. exists 0, (spec_output argv).
  pose proof (loop_tests_le argc).
  split; apply main_completes; trivial; lia.
Qed.

Lemma C7_deterministic_witness :
  hosted 2 ["playground"; "foo"]
  /\ exists (code : Z) (written : string),
       main 2 2 ["playground"; "foo"] "" = Done code ("" ++ written)
       /\ main 7 2 ["playground"; "foo"] "earlier" =
          Done code ("earlier" ++ written).
Proof.
  assert (H : hosted 2 ["playground"; "foo"])
    by (split; [reflexivity | unfold INT_MAX; lia]).
  split; [exact H|].
  apply (C7_deterministic 2 ["playground"; "foo"] 2 7 "" "earlier" H);
    vm_compute; lia.
Defined.

(** C8. The program's own name does not reach the output: two argument
    vectors that differ only in their first entry give the same outcome,
    output and exit code included. *)
Theorem C8_program_name_irrelevant
    (argc : Z) (prog1 prog2 : string) (args : list string) (fuel : nat)
    (out : string) :
  main fuel argc (prog1 :: args) out = main fuel argc (prog2 :: args) out.
Proof.
  rewrite !main_unfold.
  destruct (1 <? argc); [|reflexivity].
  now rewrite (for_loop_tail fuel 1 argc prog1 prog2) by lia.
Qed.

(** C9. With an empty argument vector ([argc] is 0) the program writes
    the banner, [No arguments provided.], the blank line and the
    completion line, and exits with code 0. *)
Theorem C9_empty_argument_vector (fuel : nat) (out : string) :
  main fuel 0 [] out
  = Done 0 (out ++ unlines [ "=== Playground Test Area for Orca ===";
                             "Hello from playground!";
                             "This is a test environment for orca integration.";
                             "";
                             "No arguments provided.";
                             "";
                             "Playground test completed successfully." ]).
Proof.
  rewrite main_unfold. reflexivity.
Qed.

(** C10. The program terminates: a run evaluates the loop condition
    [loop_tests argc] times, which is at most [argc]; it completes when it
    is given that much fuel, and only then. *)
Theorem C10_terminates
    (argc : Z) (argv : list string) (fuel : nat) (out : string) :
  hosted argc argv ->
  (loop_tests argc <= fuel)%nat ->
  (loop_tests argc <= Z.to_nat argc)%nat
  /\ (exists out' : string, main fuel argc argv out = Done 0 out')
  /\ forall fuel' : nat,
       main fuel' argc argv out = OutOfFuel
       <-> (fuel' < loop_tests argc)%nat.
Proof.
  intros Hh Hf. split; [apply loop_tests_le|]. split.
  - eexists. now apply main_completes.
  - intros fuel'. rewrite main_hosted by exact Hh.
    destruct (Nat.leb_spec (loop_tests argc) fuel'); split;
      (discriminate || lia || reflexivity).
Qed.

Lemma C10_terminates_witness :
  hosted 3 ["playground"; "foo"; "bar"]
  /\ (loop_tests 3 <= Z.to_nat 3)%nat
  /\ (exists out' : string,
        main 3 3 ["playground"; "foo"; "bar"] "" = Done 0 out')
  /\ forall fuel' : nat,
       main fuel' 3 ["playground"; "foo"; "bar"] "" = OutOfFuel
       <-> (fuel' < loop_tests 3)%nat.
Proof.
  assert (H : hosted 3 ["playground"; "foo"; "bar"])
    by (split; [reflexivity | unfold INT_MAX; lia]).
  split; [exact H|].
  apply (C10_terminates 3 ["playground"; "foo"; "bar"] 3 "" H).
  vm_compute; lia.
Defined.

(** * Further properties of [main] *)

(** ** The extent of the argument vector that is read *)

Lemma index_firstn (argv : list string) (i argc : Z) :
  i < argc -> index (firstn (Z.to_nat argc) argv) i = index argv i.
Proof.
  intros Hi. unfold index.
  destruct (Z.ltb_spec i 0) as [_|H0]; [reflexivity|].
  rewrite nth_error_firstn.
  destruct (Nat.ltb_spec (Z.to_nat i) (Z.to_nat argc)); [reflexivity | lia].
Qed.

Lemma for_loop_firstn (argc : Z) (argv : list string) (fuel : nat) :
  forall (i : Z) (out : string),
    for_loop fuel i argc (firstn (Z.to_nat argc) argv) out
    = for_loop fuel i argc argv out.
Proof.
  induction fuel as [|fuel IH]; intros i out; [reflexivity|].
  cbn [for_loop]. destruct (Z.ltb_spec i argc) as [Hi|_]; [|reflexivity].
  unfold bind. rewrite (index_firstn argv i argc Hi).
  destruct (index argv i out) as [a out1| |]; try reflexivity.
  destruct (printf _ _ out1) as [[] out2| |]; try reflexivity.
  destruct (incr i out2) as [i' out3| |]; try reflexivity.
  apply IH.
Qed.

(** The loop stops within [argc - i] iterations on any argument vector:
    with one unit of fuel more than that it does not run out. *)
Lemma for_loop_fuel_bound (argc : Z) (argv : list string) (fuel : nat) :
  forall (i : Z) (out : string),
    (Z.to_nat (argc - i) < fuel)%nat ->
    for_loop fuel i argc argv out <> OutOfFuel.
Proof.
  induction fuel as [|fuel IH]; intros i out Hf; [lia|].
  cbn [for_loop]. destruct (Z.ltb_spec i argc) as [Hi|_]; [|discriminate].
  unfold bind, index.
  destruct (i <? 0); [discriminate|].
  destruct (nth_error argv (Z.to_nat i)) as [a|]; [|discriminate].
  unfold ret at 1. rewrite printf_argument_line.
  unfold incr. destruct (i <? INT_MAX); [|discriminate].
  unfold ret. apply IH. lia.
Qed.

(** Entered below [argc] when [argc] is more than the vector holds, the
    loop reaches an entry that is not there. *)
Lemma for_loop_overrun (argc : Z) (argv : list string) (fuel : nat) :
  forall (i : Z) (out : string),
    0 <= i < argc ->
    Z.of_nat (List.length argv) < argc ->
    (List.length argv - Z.to_nat i < fuel)%nat ->
    for_loop fuel i argc argv out = Undefined.
Proof.
  induction fuel as [|fuel IH]; intros i out Hi Hlen Hf; [lia|].
  cbn [for_loop]. destruct (Z.ltb_spec i argc) as [_|H]; [|lia].
  unfold bind, index.
  destruct (Z.ltb_spec i 0) as [H|_]; [lia|].
  destruct (nth_error argv (Z.to_nat i)) as [a|] eqn:E; [|reflexivity].
  assert (Hin : (Z.to_nat i < List.length argv)%nat)
    by (apply nth_error_Some; now rewrite E).
  unfold ret at 1. rewrite printf_argument_line.
  unfold incr. destruct (i <? INT_MAX); [|reflexivity].
  unfold ret. apply IH; lia.
Qed.

(** X1. Entries of the argument vector at index [argc] and beyond are never
    read: cutting the vector down to its first [argc] entries changes
    nothing in the outcome, on any input. *)
Theorem X1_entries_from_argc_unread
    (argc : Z) (argv : list string) (fuel : nat) (out : string) :
  main fuel argc (firstn (Z.to_nat argc) argv) out = main fuel argc argv out.
Proof.
  rewrite !main_unfold. destruct (1 <? argc); [|reflexivity].
  now rewrite for_loop_firstn.
Qed.

(** X2. When [argc] is less than the number of entries of the vector,
    the program shows the arguments at indices 1 to [argc - 1] only and
    completes with exit code 0, as if the vector ended there. *)
Theorem X2_argc_below_vector_length
    (argc : Z) (argv : list string) (fuel : nat) (out : string) :
  0 <= argc <= Z.of_nat (List.length argv) ->
  argc <= INT_MAX ->
  (Z.to_nat argc <= fuel)%nat ->
  main fuel argc argv out
  = Done 0 (out ++ spec_banner
                ++ spec_section (tl (firstn (Z.to_nat argc) argv))
                ++ spec_closing).
Proof.
  intros Hargc Hmax Hf.
  rewrite main_unfold, <- for_loop_firstn, <- main_unfold.
  apply main_completes.
  - split; [|exact Hmax]. rewrite length_firstn. lia.
  - pose proof (loop_tests_le argc). lia.
Qed.

Lemma X2_argc_below_vector_length_witness :
  0 <= 2 <= Z.of_nat (List.length ["playground"; "foo"; "bar"; "baz"])
  /\ main 2 2 ["playground"; "foo"; "bar"; "baz"] ""
     = Done 0 ("" ++ spec_banner
                  ++ spec_section
                       (tl (firstn (Z.to_nat 2)
                              ["playground"; "foo"; "bar"; "baz"]))
                  ++ spec_closing).
Proof.
  assert (H : 0 <= 2 <= Z.of_nat (List.length
                                    ["playground"; "foo"; "bar"; "baz"]))
    by (vm_compute; split; discriminate).
  split; [exact H|].
  apply (X2_argc_below_vector_length 2 _ 2 "" H);
    [unfold INT_MAX; lia | vm_compute; lia].
Defined.

(** X3. When [argc] is more than 1 and more than the number of entries of
    the vector, the loop hands to [%s] an [argv[i]] that is no string
    (the null pointer that closes the vector, or what lies behind it),
    which the C standard leaves undefined: the outcome of the run is
    [Undefined], that is, the standard promises neither an output nor an
    exit code for it.  What a given C library then does (glibc writes
    [(null)] for the null pointer) is outside the model. *)
Theorem X3_argc_above_vector_length
    (argc : Z) (argv : list string) (fuel : nat) (out : string) :
  1 < argc ->
  Z.of_nat (List.length argv) < argc ->
  (Z.to_nat argc <= fuel)%nat ->
  main fuel argc argv out = Undefined.
Proof.
  intros H1 Hlen Hf. rewrite main_unfold.
  destruct (Z.ltb_spec 1 argc) as [_|H]; [|lia].
  rewrite for_loop_overrun; [reflexivity | lia | exact Hlen | lia].
Qed.

Lemma X3_argc_above_vector_length_witness :
  1 < 3
  /\ Z.of_nat (List.length ["playground"; "foo"]) < 3
  /\ main 3 3 ["playground"; "foo"] "" = Undefined.
Proof.
  split; [lia|]. split; [vm_compute; reflexivity|].
  apply (X3_argc_above_vector_length 3 ["playground"; "foo"] 3 "");
    [lia | vm_compute; reflexivity | vm_compute; lia].
Defined.

(** X4. On every input, hosted or not, the run is over after at most
    [loop_tests argc] evaluations of the loop condition: given that much
    fuel it never runs out, whatever [argv] holds. *)
Theorem X4_loop_bounded_on_every_input
    (argc : Z) (argv : list string) (fuel : nat) (out : string) :
  (loop_tests argc <= fuel)%nat ->
  main fuel argc argv out <> OutOfFuel.
Proof.
  intros Hf. rewrite main_unfold. unfold loop_tests in Hf.
  destruct (Z.ltb_spec 1 argc) as [H1|_]; [|discriminate].
  pose proof (for_loop_fuel_bound argc argv fuel 1
                (out ++ spec_banner ++ "Arguments received:" ++ nl)) as Hb.
  destruct (for_loop fuel 1 argc argv _) as [[] out'| |];
    try discriminate.
  exfalso. apply Hb; [lia | reflexivity].
Qed.

Lemma X4_loop_bounded_on_every_input_witness :
  (loop_tests 5 <= 5)%nat
  /\ main 5 5 ["playground"; "foo"] "" <> OutOfFuel.
Proof.
  split; [vm_compute; lia|].
  apply (X4_loop_bounded_on_every_input 5 ["playground"; "foo"] 5 "").
  vm_compute; lia.
Defined.

(** ** Reading the arguments back from the output *)

Lemma append_inv_head (a b c : string) : a ++ b = a ++ c -> b = c.
Proof.
  induction a as [|x a IH]; cbn [append]; intros H; [exact H|].
  injection H as H. now apply IH.
Qed.

Lemma spec_argument_line_inj (i : Z) (a b : string) :
  spec_argument_line i a = spec_argument_line i b -> a = b.
Proof.
  unfold spec_argument_line. intros H.
  now do 3 apply append_inv_head in H.
Qed.

Lemma spec_argument_lines_inj (args1 : list string) :
  forall (args2 : list string) (i : Z),
    spec_argument_lines i args1 = spec_argument_lines i args2 ->
    args1 = args2.
Proof.
  induction args1 as [|a args1 IH]; intros [|b args2] i H;
    try discriminate H; [reflexivity|].
  cbn [spec_argument_lines] in H.
  assert (Ha : spec_argument_line i a = spec_argument_line i b)
    by exact (f_equal (hd EmptyString) H).
  assert (Hrest : spec_argument_lines (i + 1) args1
                  = spec_argument_lines (i + 1) args2)
    by exact (f_equal (@tl string) H).
  apply spec_argument_line_inj in Ha. apply IH in Hrest.
  now subst.
Qed.

Lemma spec_argument_lines_app (xs ys : list string) :
  forall i : Z,
    spec_argument_lines i (xs ++ ys)
    = (spec_argument_lines i xs
         ++ spec_argument_lines (i + Z.of_nat (List.length xs)) ys)%list.
Proof.
  induction xs as [|x xs IH]; intros i.
  - cbn. now rewrite Z.add_0_r.
  - cbn [app spec_argument_lines List.length]. rewrite IH.
    do 3 f_equal. lia.
Qed.

(** The lines of what a hosted run writes, when no argument has a
    newline in it. *)
Lemma run_lines
    (prog : string) (args : list string) (argc : Z) (fuel : nat) :
  hosted argc (prog :: args) ->
  (Z.to_nat argc <= fuel)%nat ->
  forallb newline_free args = true ->
  exists written : string,
    main fuel argc (prog :: args) "" = Done 0 written
    /\ lines_of written
       = (spec_banner_lines
            ++ match args with
               | [] => ["No arguments provided."]
               | _ :: _ =>
                   "Arguments received:" :: spec_argument_lines 1 args
               end
            ++ spec_closing_lines)%list.
Proof.
  intros Hh Hf Hnl. destruct args as [|a args].
  - exists (spec_output [prog]). split; [|reflexivity].
    apply (main_completes fuel argc [prog] "" Hh).
    pose proof (loop_tests_le argc). lia.
  - now apply argument_run_lines.
Qed.

(** X5. The output is a faithful record of arguments that hold no
    newline: two hosted runs on such arguments that write the same output
    were given the same list of arguments. *)
Theorem X5_output_determines_arguments
    (prog1 prog2 : string) (args1 args2 : list string)
    (argc1 argc2 : Z) (fuel1 fuel2 : nat) :
  hosted argc1 (prog1 :: args1) ->
  hosted argc2 (prog2 :: args2) ->
  (Z.to_nat argc1 <= fuel1)%nat ->
  (Z.to_nat argc2 <= fuel2)%nat ->
  forallb newline_free args1 = true ->
  forallb newline_free args2 = true ->
  main fuel1 argc1 (prog1 :: args1) "" = main fuel2 argc2 (prog2 :: args2) "" ->
  args1 = args2.
Proof.
  intros Hh1 Hh2 Hf1 Hf2 Hn1 Hn2 Hsame.
  destruct (run_lines prog1 args1 argc1 fuel1 Hh1 Hf1 Hn1) as [w1 [R1 L1]].
  destruct (run_lines prog2 args2 argc2 fuel2 Hh2 Hf2 Hn2) as [w2 [R2 L2]].
  rewrite R1, R2 in Hsame. injection Hsame as ->.
  rewrite L1 in L2. apply app_inv_head, app_inv_tail in L2.
  destruct args1 as [|a1 args1], args2 as [|a2 args2];
    try discriminate L2; [reflexivity|].
  apply (f_equal (@tl string)) in L2. cbn [tl] in L2.
  now apply spec_argument_lines_inj in L2.
Qed.

Lemma X5_output_determines_arguments_witness :
  hosted 3 ["playground"; "foo"; "bar"]
  /\ hosted 3 ["./playground"; "foo"; "bar"]
  /\ main 3 3 ["playground"; "foo"; "bar"] ""
     = main 4 3 ["./playground"; "foo"; "bar"] ""
  /\ ["foo"; "bar"] = ["foo"; "bar"].
Proof.
  assert (H1 : hosted 3 ["playground"; "foo"; "bar"])
    by (split; [reflexivity | unfold INT_MAX; lia]).
  assert (H2 : hosted 3 ["./playground"; "foo"; "bar"])
    by (split; [reflexivity | unfold INT_MAX; lia]).
  assert (E : main 3 3 ["playground"; "foo"; "bar"] ""
              = main 4 3 ["./playground"; "foo"; "bar"] "")
    by reflexivity.
  split; [exact H1|]. split; [exact H2|]. split; [exact E|].
  apply (X5_output_determines_arguments
           "playground" "./playground" ["foo"; "bar"] ["foo"; "bar"]
           3 3 3 4 H1 H2);
    [vm_compute; lia | vm_compute; lia | reflexivity | reflexivity | exact E].
Defined.

(** X6. A newline inside an argument is written as it is, so one argument
    can pass for two: the argument made of [a], a newline and the text
    [  [2]: b] gives the very outcome that the two arguments [a] and [b]
    give.  This is why X5 asks for arguments without newlines. *)
Theorem X6_newline_forges_a_line
    (prog a b : string) (fuel : nat) (out : string) :
  (3 <= fuel)%nat ->
  main fuel 2 [prog; a ++ nl ++ "  [2]: " ++ b] out
  = main fuel 3 [prog; a; b] out.
Proof.
  intros Hf.
  rewrite !main_completes;
    try (split; [reflexivity | unfold INT_MAX; lia]);
    try (vm_compute; lia).
  do 2 f_equal. unfold spec_output. do 2 f_equal.
  cbn [tl spec_section unlines spec_argument_lines].
  unfold spec_argument_line. f_equal.
  change (decimal 1) with "1". change (decimal (1 + 1)) with "2".
  cbn [append]. now rewrite !append_assoc.
Qed.

Lemma X6_newline_forges_a_line_witness :
  (3 <= 3)%nat
  /\ main 3 2 ["playground"; "foo" ++ nl ++ "  [2]: " ++ "bar"] ""
     = main 3 3 ["playground"; "foo"; "bar"] "".
Proof.
  split; [lia|].
  apply (X6_newline_forges_a_line "playground" "foo" "bar" 3 ""). lia.
Defined.

(** X7. When no argument holds a newline, the output of a hosted run with
    N arguments has N + 7 lines, and the k-th argument (counting from 0)
    stands alone, behind its index, on line 5 + k. *)
Theorem X7_one_line_per_argument
    (prog : string) (args : list string) (argc : Z) (fuel : nat) :
  hosted argc (prog :: args) ->
  (Z.to_nat argc <= fuel)%nat ->
  forallb newline_free args = true ->
  exists written : string,
    main fuel argc (prog :: args) "" = Done 0 written
    /\ List.length (lines_of written) = (List.length args + 7)%nat
    /\ forall (k : nat) (a : string),
         nth_error args k = Some a ->
         nth_error (lines_of written) (5 + k)
         = Some ("  [" ++ decimal (Z.of_nat k + 1) ++ "]: " ++ a).
Proof.
  intros Hh Hf Hnl.
  destruct (run_lines prog args argc fuel Hh Hf Hnl) as [w [R L]].
  exists w. split; [exact R|]. rewrite L. split.
  - destruct args as [|a args]; [reflexivity|].
    cbn [List.length app spec_banner_lines].
    rewrite length_app, spec_argument_lines_length.
    cbn [List.length spec_closing_lines]. lia.
  - intros k a Hk. destruct args as [|a0 args]; [now destruct k|].
    change (nth_error
              (spec_argument_lines 1 (a0 :: args) ++ spec_closing_lines) k
            = Some ("  [" ++ decimal (Z.of_nat k + 1) ++ "]: " ++ a)).
    rewrite nth_error_app1.
    + rewrite (spec_argument_lines_nth _ 1 k a Hk).
      unfold spec_argument_line. now rewrite Z.add_comm.
    + rewrite spec_argument_lines_length.
      apply nth_error_Some. now rewrite Hk.
Qed.

Lemma X7_one_line_per_argument_witness :
  hosted 3 ["playground"; "foo"; "a b"]
  /\ exists written : string,
       main 3 3 ["playground"; "foo"; "a b"] "" = Done 0 written
       /\ List.length (lines_of written)
          = (List.length ["foo"; "a b"] + 7)%nat
       /\ forall (k : nat) (a : string),
            nth_error ["foo"; "a b"] k = Some a ->
            nth_error (lines_of written) (5 + k)
            = Some ("  [" ++ decimal (Z.of_nat k + 1) ++ "]: " ++ a).
Proof.
  assert (H : hosted 3 ["playground"; "foo"; "a b"])
    by (split; [reflexivity | unfold INT_MAX; lia]).
  split; [exact H|].
  apply (X7_one_line_per_argument "playground" ["foo"; "a b"] 3 3 H);
    [vm_compute; lia | reflexivity].
Defined.

(** ** Longer argument lists *)

(** X8. Arguments added at the end leave what was written for the
    earlier ones as it was: the output for [xs] followed by [ys] is the
    output for [xs] with the lines of [ys], numbered on from where [xs]
    stopped, put in ahead of the closing lines. *)
Theorem X8_appended_arguments
    (prog : string) (xs ys : list string) (argc1 argc2 : Z)
    (fuel1 fuel2 : nat) (out : string) :
  hosted argc1 (prog :: xs) ->
  hosted argc2 (prog :: xs ++ ys) ->
  xs <> [] ->
  (Z.to_nat argc1 <= fuel1)%nat ->
  (Z.to_nat argc2 <= fuel2)%nat ->
  exists body : string,
    main fuel1 argc1 (prog :: xs) out = Done 0 (out ++ body ++ spec_closing)
    /\ main fuel2 argc2 (prog :: xs ++ ys) out
       = Done 0 (out ++ body
                     ++ unlines (spec_argument_lines
                                   (1 + Z.of_nat (List.length xs)) ys)
                     ++ spec_closing).
Proof.
  intros Hh1 Hh2 Hne Hf1 Hf2.
  exists (spec_banner ++ spec_section xs).
  pose proof (loop_tests_le argc1). pose proof (loop_tests_le argc2).
  split.
  - rewrite main_completes by (trivial; lia).
    unfold spec_output. cbn [tl]. now rewrite !append_assoc.
  - rewrite main_completes by (trivial; lia).
    unfold spec_output. cbn [tl].
    destruct xs as [|x xs]; [contradiction|].
    cbn [app spec_section].
    change (x :: (xs ++ ys)%list) with ((x :: xs) ++ ys)%list.
    rewrite spec_argument_lines_app, app_comm_cons, unlines_app.
    now rewrite !append_assoc.
Qed.

Lemma X8_appended_arguments_witness :
  hosted 2 ["playground"; "foo"]
  /\ hosted 4 ("playground" :: ["foo"] ++ ["bar"; "baz"])
  /\ exists body : string,
       main 2 2 ["playground"; "foo"] "" = Done 0 ("" ++ body ++ spec_closing)
       /\ main 4 4 ("playground" :: ["foo"] ++ ["bar"; "baz"]) ""
          = Done 0 ("" ++ body
                       ++ unlines (spec_argument_lines
                                     (1 + Z.of_nat (List.length ["foo"]))
                                     ["bar"; "baz"])
                       ++ spec_closing).
Proof.
  assert (H1 : hosted 2 ["playground"; "foo"])
    by (split; [reflexivity | unfold INT_MAX; lia]).
  assert (H2 : hosted 4 ("playground" :: ["foo"] ++ ["bar"; "baz"]))
    by (split; [reflexivity | unfold INT_MAX; lia]).
  split; [exact H1|]. split; [exact H2|].
  apply (X8_appended_arguments "playground" ["foo"] ["bar"; "baz"]
           2 4 2 4 "" H1 H2);
    [discriminate | vm_compute; lia | vm_compute; lia].
Defined.
